(** * readJson (packages/node-fs/src/read-json.ts)

    A shallow embedding of [readJson] and proofs of its contract.

    [readJson] is a composition of three imported collaborators
    ([logger] from ./common, [parseJson] from ./json, [readFile] and
    [readFileSync] from ./read-file).  Their code is not part of the loader;
    they are taken as parameters.  Every call the loader makes to one of them
    is recorded in a ghost trace, so that statements about which collaborator
    is called, in which order and with which argument can be made. *)

From Stdlib Require Import String Ascii List ZArith Bool Lia.
Import ListNotations.
Open Scope string_scope.
Open Scope list_scope.

(** ** JavaScript strings: [String.prototype.slice]

    A [string] stands for a JavaScript string, one character per UTF-16 code
    unit; [slice] counts code units, whatever they are. *)
Module JsString.

(** [s.slice(start)] with [end] absent (ECMAScript 22.1.3.22): a negative
    [start] counts from the end and is clamped at 0, a positive one is
    clamped at the length; the result runs to the end of [s]. *)
Definition slice (s : string) (start : Z) : string :=
  let len := Z.of_nat (String.length s) in
  let from := if (start <? 0)%Z then Z.max (len + start) 0 else Z.min start len in
  let span := Z.max (len - from) 0 in
  substring (Z.to_nat from) (Z.to_nat span) s.

(** [suf] is a suffix of [s]. *)
Definition is_suffix (suf s : string) : Prop :=
  exists pre, s = (pre ++ suf)%string.

(** Executable suffix test. *)
Definition suffixb (suf s : string) : bool :=
  let n := String.length s - String.length suf in
  Nat.leb (String.length suf) (String.length s)
  && String.eqb (substring n (String.length suf) s) suf.

End JsString.

(** ** JavaScript values that can reach the [sync] parameter

    The declared type is [boolean] with a default, but the dispatch is a
    run-time test, so the argument is modelled as an arbitrary value:
    [JsUndefined] is an absent argument, [JsNumber] an integral number,
    [JsObject] an object known by its reference. *)
Inductive JsValue : Type :=
| JsUndefined
| JsNull
| JsBoolean (b : bool)
| JsNumber (n : Z)
| JsString (s : string)
| JsObject (ref : nat).

(** A default parameter initialiser ([sync = false]) applies exactly when the
    argument is [undefined]. *)
Definition default_param (arg dflt : JsValue) : JsValue :=
  match arg with
  | JsUndefined => dflt
  | _ => arg
  end.

(** The [===] operator: no conversion, values of different types differ,
    objects are compared by reference. *)
Definition strict_equals (a b : JsValue) : bool :=
  match a, b with
  | JsUndefined, JsUndefined => true
  | JsNull, JsNull => true
  | JsBoolean x, JsBoolean y => Bool.eqb x y
  | JsNumber x, JsNumber y => Z.eqb x y
  | JsString x, JsString y => String.eqb x y
  | JsObject x, JsObject y => Nat.eqb x y
  | _, _ => false
  end.

(** ** Calls, completions and promises *)

(** The argument snapshot [{path: ..., sync}] passed to the logging hook. *)
Record LogArgs : Type := { args_path : string; args_sync : JsValue }.

(** Calls to the imported collaborators, as the loader issues them. *)
Inductive Call : Type :=
| CallLogMethodArgs (method : string) (args : LogArgs)
| CallReadFileSync (path : string)
| CallReadFile (path : string)
| CallParseJson (content : string).

Definition is_log (c : Call) : bool :=
  match c with CallLogMethodArgs _ _ => true | _ => false end.

Definition is_read (c : Call) : bool :=
  match c with CallReadFileSync _ | CallReadFile _ => true | _ => false end.

Definition is_parse (c : Call) : bool :=
  match c with CallParseJson _ => true | _ => false end.

Section Effects.

(** Values that can be thrown. *)
Variable Err : Type.

(** How a call ends: it returns a value or throws. *)
Inductive Completion (A : Type) : Type :=
| Normal (a : A)
| Throw (e : Err).

(** How a promise ends up: fulfilled with a value or rejected. *)
Inductive Settlement (A : Type) : Type :=
| Fulfilled (a : A)
| Rejected (e : Err).

(** A run of synchronous code: the collaborator calls it made, in order,
    and its completion. *)
Record Eff (A : Type) : Type := mkEff
  { calls : list Call; completion : Completion A }.

(** A promise: its eventual settlement, and the collaborator calls that the
    reactions registered on it make once it settles (after the synchronous
    run that created it has returned). *)
Record Promise (A : Type) : Type := mkPromise
  { reactions : list Call; state : Settlement A }.

(** [MaybePromise<T> = T | Promise<T>] (type-helper). *)
Inductive MaybePromise (A : Type) : Type :=
| Value (a : A)
| Deferred (p : Promise A).

End Effects.

Arguments Normal {Err A} a.
Arguments Throw {Err A} e.
Arguments Fulfilled {Err A} a.
Arguments Rejected {Err A} e.
Arguments mkEff {Err A} calls completion.
Arguments calls {Err A} _.
Arguments completion {Err A} _.
Arguments mkPromise {Err A} reactions state.
Arguments reactions {Err A} _.
Arguments state {Err A} _.
Arguments Value {Err A} a.
Arguments Deferred {Err A} p.

Section Monad.

Context {Err : Type}.

Definition ret {A} (a : A) : Eff Err A := mkEff [] (Normal a).

(** Sequencing: a throw skips the rest. *)
Definition bind {A B} (m : Eff Err A) (k : A -> Eff Err B) : Eff Err B :=
  match completion m with
  | Normal a => let r := k a in mkEff (calls m ++ calls r) (completion r)
  | Throw e => mkEff (calls m) (Throw e)
  end.

(** Calling a collaborator: the call is recorded, then it completes as the
    collaborator decides. *)
Definition call {A} (c : Call) (result : Completion Err A) : Eff Err A :=
  mkEff [c] result.

(** [f?.(...)]: nothing happens, and the arguments are not evaluated, when
    [f] is [undefined]. *)
Definition optional_call {X} (f : option X) (k : X -> Eff Err unit) : Eff Err unit :=
  match f with
  | Some g => k g
  | None => ret tt
  end.

(** [p.then(onFulfilled)]: the new promise is rejected with [p]'s reason
    when [p] is rejected ([onFulfilled] is not run); otherwise
    [onFulfilled] runs on [p]'s value and the new promise is fulfilled with
    what it returns, or rejected with what it throws.  (The value returned
    here is parsed JSON, never a thenable.) *)
Definition then_ {A B} (p : Promise Err A) (onFulfilled : A -> Eff Err B)
  : Promise Err B :=
  match state p with
  | Fulfilled a =>
      let r := onFulfilled a in
      mkPromise (reactions p ++ calls r)
                (match completion r with
                 | Normal b => Fulfilled b
                 | Throw e => Rejected e
                 end)
  | Rejected e => mkPromise (reactions p) (Rejected e)
  end.

(** What the caller ends up with, by [await] in a [try]: a thrown value and
    a rejection reason both surface as a throw. *)
Definition awaited {A} (r : Eff Err (MaybePromise Err A)) : Completion Err A :=
  match completion r with
  | Normal (Value a) => Normal a
  | Normal (Deferred p) =>
      match state p with
      | Fulfilled a => Normal a
      | Rejected e => Throw e
      end
  | Throw e => Throw e
  end.

(** Every collaborator call of a run, the deferred ones included. *)
Definition all_calls {A} (r : Eff Err (MaybePromise Err A)) : list Call :=
  calls r ++
  match completion r with
  | Normal (Deferred p) => reactions p
  | _ => []
  end.

End Monad.

Notation "x <- m ;; k" := (bind m (fun x => k))
  (at level 61, m at next level, right associativity).
Notation "m ;; k" := (bind m (fun _ => k))
  (at level 61, right associativity).

(** ** The loader *)
Section Loader.

(** [Err]: thrown values; [T]: the decoded structural value (the caller's
    [T extends Dictionary], not checked at run time); [World]: the state of
    storage when the call is made. *)
Variables Err T World : Type.

(** [logger] of ./common: [logMethodArgs] may be undefined. *)
Record Logger : Type := mkLogger
  { logMethodArgs : option (string -> LogArgs -> Completion Err unit) }.

(** The imports of ./json and ./read-file.  [readFile] returns a promise,
    given here by its settlement. *)
Record Imports : Type := mkImports
  { parseJson : string -> Completion Err T;
    readFileSync : World -> string -> Completion Err string;
    readFile : World -> string -> Completion Err (Settlement Err string) }.

Variable logger : Logger.
Variable imports : Imports.
Variable world : World.

Definition call_parseJson (content : string) : Eff Err T :=
  call (CallParseJson content) (parseJson imports content).

Definition call_readFileSync (path : string) : Eff Err string :=
  call (CallReadFileSync path) (readFileSync imports world path).

Definition call_readFile (path : string) : Eff Err (Promise Err string) :=
  call (CallReadFile path)
       (match readFile imports world path with
        | Normal st => Normal (mkPromise [] st)
        | Throw e => Throw e
        end).

(** read-json.ts, line 54. *)
Definition log_call (path : string) (sync : JsValue) : Eff Err unit :=
  optional_call (logMethodArgs logger)
    (fun hook =>
       let args := {| args_path := JsString.slice path (-32); args_sync := sync |} in
       call (CallLogMethodArgs "readJson" args) (hook "readJson" args)).

(** read-json.ts, lines 53-61. *)
Definition readJson (path : string) (sync_arg : JsValue) : Eff Err (MaybePromise Err T) :=
  let sync := default_param sync_arg (JsBoolean false) in
  log_call path sync ;;
  if strict_equals sync (JsBoolean true) then
    content <- call_readFileSync path ;;
    v <- call_parseJson content ;;
    ret (Value v)
  else
    p <- call_readFile path ;;
    ret (Deferred (then_ p (fun content => call_parseJson content))).

End Loader.

Arguments logMethodArgs {Err} _.
Arguments mkLogger {Err} _.
Arguments parseJson {Err T World} _ _.
Arguments readFileSync {Err T World} _ _ _.
Arguments readFile {Err T World} _ _ _.
Arguments mkImports {Err T World} _ _ _.
Arguments call_parseJson {Err T World} imports content.
Arguments call_readFileSync {Err T World} imports world path.
Arguments call_readFile {Err T World} imports world path.
Arguments log_call {Err} logger path sync.
Arguments readJson {Err T World} logger imports world path sync_arg.

(** ** What the loader expects of its collaborators *)
Section Contracts.

Context {Err T World : Type}.

(** The logging hook is fire-and-forget: when it is set, it returns. *)
Definition LoggerContract (lg : Logger Err) : Prop :=
  forall hook, logMethodArgs lg = Some hook ->
               forall m a, hook m a = Normal tt.

(** A logger whose hook is unset. *)
Definition silent_logger : Logger Err := mkLogger None.

(** A rejection surfaces as a throw at the [await]. *)
Definition surfaced {A} (st : Settlement Err A) : Completion Err A :=
  match st with
  | Fulfilled a => Normal a
  | Rejected e => Throw e
  end.

(** What the non-blocking read delivers in the end. *)
Definition readFile_outcome (im : Imports Err T World) (w : World) (p : string)
  : Completion Err string :=
  match readFile im w p with
  | Normal st => surfaced st
  | Throw e => Throw e
  end.

(** Both read primitives see the same file: same text, or same error. *)
Definition SameFile (im : Imports Err T World) (w : World) (p : string) : Prop :=
  readFile_outcome im w p = readFileSync im w p.

(** The file at [p] reads the same in the two states of storage. *)
Definition Unchanged (im : Imports Err T World) (w1 w2 : World) (p : string) : Prop :=
  readFileSync im w1 p = readFileSync im w2 p /\
  readFile im w1 p = readFile im w2 p.

(** The run makes no call to the parse primitive, now or later. *)
Definition never_parses (r : Eff Err (MaybePromise Err T)) : Prop :=
  filter is_parse (all_calls r) = [].

End Contracts.

(** ** Sample collaborators

    A small file store, a recogniser of a few JSON texts and three loggers,
    to run the loader on concrete inputs. *)
Module Sample.

#[local] Set Warnings "-register-all".
Inductive Json : Type :=
| JsonNull
| JsonBool (b : bool)
| JsonNumber (n : Z)
| JsonArray (items : list Json)
| JsonObject (members : list (string * Json)).

Definition Storage : Type := list (string * string).

Fixpoint lookup (p : string) (fs : Storage) : option string :=
  match fs with
  | [] => None
  | (q, c) :: rest => if String.eqb p q then Some c else lookup p rest
  end.

Definition parse (text : string) : Completion string Json :=
  if String.eqb text "null" then Normal JsonNull
  else if String.eqb text "true" then Normal (JsonBool true)
  else if String.eqb text "false" then Normal (JsonBool false)
  else if String.eqb text "{}" then Normal (JsonObject [])
  else if String.eqb text "[1]" then Normal (JsonArray [JsonNumber 1])
  else Throw "invalid_json".

Definition read_sync (fs : Storage) (p : string) : Completion string string :=
  match lookup p fs with
  | Some c => Normal c
  | None => Throw "ENOENT"
  end.

Definition read_async (fs : Storage) (p : string)
  : Completion string (Settlement string string) :=
  Normal (match lookup p fs with
          | Some c => Fulfilled c
          | None => Rejected "ENOENT"
          end).

Definition imports : Imports string Json Storage :=
  mkImports parse read_sync read_async.

Definition disk : Storage :=
  [ ("config.json", "{}");
    ("bad.json", "{a:}");
    ("/srv/app/releases/current/data/store/config.json", "[1]") ].

Definition disk_later : Storage :=
  ("other.json", "null") :: disk.

Definition debug_logger : Logger string :=
  mkLogger (Some (fun _ _ => Normal tt)).

Definition broken_logger : Logger string :=
  mkLogger (Some (fun _ _ => Throw "console_closed")).

Definition long_path : string :=
  "/srv/app/releases/current/data/store/config.json".

End Sample.

(** Unfolds a loader run down to its collaborators' answers. *)
Ltac unfold_loader :=
  unfold readJson, log_call, optional_call, call_readFileSync, call_parseJson,
    call_readFile, call, bind, ret, then_, awaited, all_calls, never_parses,
    silent_logger in *.

(** ** Loader runs on the sample collaborators *)

Example sample_sync_ok :
  readJson Sample.debug_logger Sample.imports Sample.disk "config.json" (JsBoolean true)
  = mkEff [ CallLogMethodArgs "readJson"
              {| args_path := "config.json"; args_sync := JsBoolean true |};
            CallReadFileSync "config.json";
            CallParseJson "{}" ]
          (Normal (Value (Sample.JsonObject []))).
Proof. reflexivity. Qed.

Example sample_async_ok :
  readJson Sample.debug_logger Sample.imports Sample.disk "config.json" JsUndefined
  = mkEff [ CallLogMethodArgs "readJson"
              {| args_path := "config.json"; args_sync := JsBoolean false |};
            CallReadFile "config.json" ]
          (Normal (Deferred (mkPromise [CallParseJson "{}"]
                                       (Fulfilled (Sample.JsonObject []))))).
Proof. reflexivity. Qed.

Example sample_missing_sync :
  readJson Sample.debug_logger Sample.imports Sample.disk "missing.json" (JsBoolean true)
  = mkEff [ CallLogMethodArgs "readJson"
              {| args_path := "missing.json"; args_sync := JsBoolean true |};
            CallReadFileSync "missing.json" ]
          (Throw "ENOENT").
Proof. reflexivity. Qed.

Example sample_bad_async :
  readJson silent_logger Sample.imports Sample.disk "bad.json" (JsBoolean false)
  = mkEff [ CallReadFile "bad.json" ]
          (Normal (Deferred (mkPromise [CallParseJson "{a:}"] (Rejected "invalid_json")))).
Proof. reflexivity. Qed.

Example sample_long_path_logged :
  calls (readJson Sample.debug_logger Sample.imports Sample.disk Sample.long_path (JsBoolean true))
  = [ CallLogMethodArgs "readJson"
        {| args_path := "s/current/data/store/config.json"; args_sync := JsBoolean true |};
      CallReadFileSync Sample.long_path;
      CallParseJson "[1]" ].
Proof. reflexivity. Qed.

Example sample_broken_logger :
  readJson Sample.broken_logger Sample.imports Sample.disk "config.json" JsUndefined
  = mkEff [ CallLogMethodArgs "readJson"
              {| args_path := "config.json"; args_sync := JsBoolean false |} ]
          (Throw "console_closed").
Proof. reflexivity. Qed.

(** ** [slice] yields a bounded suffix *)
Module JsStringFacts.
Import JsString.

Lemma substring_whole (s : string) :
  substring 0 (String.length s) s = s.
Proof.
  induction s as [|c s IH]; simpl; [reflexivity | now rewrite IH].
Qed.

(** Dropping [n] characters leaves a suffix, and what was dropped has
    length [n]. *)
Lemma substring_tail_split (s : string) :
  forall n, (n <= String.length s)%nat ->
    exists pre,
      s = (pre ++ substring n (String.length s - n) s)%string
      /\ String.length pre = n.
Proof.
  induction s as [|c s IH]; intros n Hn.
  - simpl in Hn. assert (n = 0)%nat by lia. subst n.
    exists EmptyString. split; reflexivity.
  - destruct n as [|n].
    + exists EmptyString. split; [|reflexivity].
      rewrite Nat.sub_0_r, substring_whole. reflexivity.
    + simpl in Hn. destruct (IH n) as [pre [Heq Hlen]]; [lia|].
      exists (String c pre). split.
      * simpl. f_equal. exact Heq.
      * simpl. now rewrite Hlen.
Qed.








Lemma suffixb_sound (suf s : string) :
  suffixb suf s = true -> is_suffix suf s.
Proof.
  unfold suffixb. intros H.
  apply andb_true_iff in H. destruct H as [Hle Heq].
  apply Nat.leb_le in Hle. apply String.eqb_eq in Heq.
  destruct (substring_tail_split s (String.length s - String.length suf))
    as [pre [Hs _]]; [lia|].
  replace (String.length s - (String.length s - String.length suf))%nat
    with (String.length suf) in Hs by lia.
  rewrite Heq in Hs. exists pre. exact Hs.
Qed.

End JsStringFacts.

(** ** Facts about the pieces of the loader *)

Section Pieces.

Context {Err T World : Type}.
Implicit Types (lg : Logger Err) (im : Imports Err T World) (w : World).
Implicit Types (p : string) (s : JsValue).

(** The blocking branch is selected by the argument [true] and by nothing
    else. *)
Lemma blocking_iff s :
  strict_equals (default_param s (JsBoolean false)) (JsBoolean true) = true
  <-> s = JsBoolean true.
Proof.
  destruct s as [| |[|]| | |]; simpl; split; intros H;
    try reflexivity; try discriminate.
Qed.

Lemma non_blocking_iff s :
  strict_equals (default_param s (JsBoolean false)) (JsBoolean true) = false
  <-> s <> JsBoolean true.
Proof.
  rewrite <- blocking_iff.
  destruct (strict_equals _ _); split; intros H; congruence.
Qed.

Lemma log_call_silent p s :
  log_call (@silent_logger Err) p s = ret tt.
Proof. reflexivity. Qed.

(** The logging line makes no call, or the one hook call. *)
Lemma log_call_calls lg p s :
  calls (log_call lg p s) = []
  \/ calls (log_call lg p s)
     = [CallLogMethodArgs "readJson"
          {| args_path := JsString.slice p (-32); args_sync := s |}].
Proof.
  destruct lg as [[hook|]]; [right | left]; reflexivity.
Qed.

Lemma log_call_returns lg p s :
  LoggerContract lg -> completion (log_call lg p s) = Normal tt.
Proof.
  intros HL. destruct lg as [[hook|]]; [|reflexivity].
  unfold_loader. simpl. apply (HL hook). reflexivity.
Qed.

(** The loader is the logging line followed by the dispatch. *)
Lemma readJson_after_log lg im w p s :
  LoggerContract lg ->
  readJson lg im w p s
  = let r := readJson silent_logger im w p s in
    mkEff (calls (log_call lg p (default_param s (JsBoolean false))) ++ calls r)
          (completion r).
Proof.
  intros HL.
  pose proof (log_call_returns lg p (default_param s (JsBoolean false)) HL) as Hlog.
  unfold readJson at 1. unfold bind at 1. rewrite Hlog.
  reflexivity.
Qed.

(** Without a hook, the blocking run. *)
Lemma readJson_silent_blocking im w p :
  readJson silent_logger im w p (JsBoolean true)
  = match readFileSync im w p with
    | Normal j =>
        match parseJson im j with
        | Normal v => mkEff [CallReadFileSync p; CallParseJson j] (Normal (Value v))
        | Throw e => mkEff [CallReadFileSync p; CallParseJson j] (Throw e)
        end
    | Throw e => mkEff [CallReadFileSync p] (Throw e)
    end.
Proof.
  unfold_loader. simpl.
  destruct (readFileSync im w p) as [j|e]; simpl; [|reflexivity].
  destruct (parseJson im j); reflexivity.
Qed.

(** Without a hook, the non-blocking run. *)
Lemma readJson_silent_non_blocking im w p s :
  s <> JsBoolean true ->
  readJson silent_logger im w p s
  = match readFile im w p with
    | Normal (Fulfilled j) =>
        mkEff [CallReadFile p]
              (Normal (Deferred (mkPromise [CallParseJson j]
                                           (match parseJson im j with
                                            | Normal v => Fulfilled v
                                            | Throw e => Rejected e
                                            end))))
    | Normal (Rejected e) =>
        mkEff [CallReadFile p] (Normal (Deferred (mkPromise [] (Rejected e))))
    | Throw e => mkEff [CallReadFile p] (Throw e)
    end.
Proof.
  intros Hs. apply non_blocking_iff in Hs.
  unfold readJson. rewrite Hs. unfold_loader. simpl.
  destruct (readFile im w p) as [[j|e]|e]; reflexivity.
Qed.

Lemma bind_ret_l {A B} (a : A) (k : A -> Eff Err B) :
  (x <- ret a ;; k x) = k a.
Proof.
  unfold bind, ret. cbn [completion calls app]. destruct (k a); reflexivity.
Qed.

(** Whatever the hook does: the loader is the logging line, then, if that
    returned, the run of a loader without hook. *)
Lemma readJson_split lg im w p s :
  readJson lg im w p s
  = (log_call lg p (default_param s (JsBoolean false)) ;;
     readJson silent_logger im w p s).
Proof.
  assert (Hsilent : forall B (k : unit -> Eff Err B),
             (log_call (@silent_logger Err) p (default_param s (JsBoolean false)) ;; k tt)
             = k tt).
  { intros B k. apply (bind_ret_l tt (fun _ => k tt)). }
  unfold readJson. rewrite (Hsilent _ (fun _ => _)).
  reflexivity.
Qed.

Lemma readJson_all_calls_split lg im w p s :
  all_calls (readJson lg im w p s)
  = calls (log_call lg p (default_param s (JsBoolean false)))
    ++ match completion (log_call lg p (default_param s (JsBoolean false))) with
       | Normal _ => all_calls (readJson silent_logger im w p s)
       | Throw _ => []
       end.
Proof.
  rewrite readJson_split at 1. unfold all_calls, bind.
  destruct (completion (log_call lg p _)); cbn [completion calls].
  - now rewrite app_assoc.
  - reflexivity.
Qed.

(** The calls of a run without hook: one read, with the caller's path,
    then at most one parse. *)
Lemma readJson_silent_all_calls im w p s :
  all_calls (readJson silent_logger im w p s)
  = if strict_equals (default_param s (JsBoolean false)) (JsBoolean true)
    then CallReadFileSync p ::
           match readFileSync im w p with
           | Normal j => [CallParseJson j]
           | Throw _ => []
           end
    else CallReadFile p ::
           match readFile im w p with
           | Normal (Fulfilled j) => [CallParseJson j]
           | _ => []
           end.
Proof.
  destruct (strict_equals _ _) eqn:Hb.
  - apply blocking_iff in Hb. subst s.
    rewrite readJson_silent_blocking. unfold all_calls.
    destruct (readFileSync im w p) as [j|e]; [|reflexivity].
    destruct (parseJson im j); reflexivity.
  - apply non_blocking_iff in Hb.
    rewrite readJson_silent_non_blocking by exact Hb. unfold all_calls.
    destruct (readFile im w p) as [[j|e]|e]; reflexivity.
Qed.

Lemma readJson_silent_no_log im w p s :
  filter is_log (all_calls (readJson silent_logger im w p s)) = [].
Proof.
  rewrite readJson_silent_all_calls.
  destruct (strict_equals _ _).
  - destruct (readFileSync im w p); reflexivity.
  - destruct (readFile im w p) as [[j|e]|e]; reflexivity.
Qed.


Lemma filter_nil_not_in {A} (f : A -> bool) (l : list A) (x : A) :
  filter f l = [] -> In x l -> f x = false.
Proof.
  intros Hnil Hin. destruct (f x) eqn:Hfx; [|reflexivity].
  assert (In x (filter f l)) as Hx by (apply filter_In; split; assumption).
  rewrite Hnil in Hx. destruct Hx.
Qed.

(** A hook that keeps its contract leaves the completion alone and only
    adds its call in front of the others. *)
Lemma readJson_completion lg im w p s :
  LoggerContract lg ->
  completion (readJson lg im w p s)
  = completion (readJson silent_logger im w p s).
Proof.
  intros HL. rewrite (readJson_after_log lg) by exact HL. reflexivity.
Qed.

Lemma readJson_calls lg im w p s :
  LoggerContract lg ->
  calls (readJson lg im w p s)
  = calls (log_call lg p (default_param s (JsBoolean false)))
    ++ calls (readJson silent_logger im w p s).
Proof.
  intros HL. rewrite (readJson_after_log lg) by exact HL. reflexivity.
Qed.

Lemma readJson_awaited lg im w p s :
  LoggerContract lg ->
  awaited (readJson lg im w p s) = awaited (readJson silent_logger im w p s).
Proof.
  intros HL. unfold awaited. rewrite (readJson_completion lg) by exact HL.
  reflexivity.
Qed.

Lemma readJson_all_calls lg im w p s :
  LoggerContract lg ->
  all_calls (readJson lg im w p s)
  = calls (log_call lg p (default_param s (JsBoolean false)))
    ++ all_calls (readJson silent_logger im w p s).
Proof.
  intros HL. unfold all_calls.
  rewrite (readJson_completion lg), (readJson_calls lg) by exact HL.
  now rewrite app_assoc.
Qed.

Lemma log_call_no_parse lg p s :
  filter is_parse (calls (log_call lg p s)) = [].
Proof.
  destruct (log_call_calls lg p s) as [-> | ->]; reflexivity.
Qed.

Lemma log_call_no_read lg p s :
  filter is_read (calls (log_call lg p s)) = [].
Proof.
  destruct (log_call_calls lg p s) as [-> | ->]; reflexivity.
Qed.

(** The awaited outcome, stage by stage. *)
Lemma readJson_awaited_split lg im w p s :
  awaited (readJson lg im w p s)
  = match completion (log_call lg p (default_param s (JsBoolean false))) with
    | Normal _ => awaited (readJson silent_logger im w p s)
    | Throw e => Throw e
    end.
Proof.
  unfold awaited. rewrite (readJson_split lg). unfold bind.
  destruct (completion (log_call lg p _)); reflexivity.
Qed.

Lemma readJson_silent_awaited im w p s :
  awaited (readJson silent_logger im w p s)
  = match (if strict_equals (default_param s (JsBoolean false)) (JsBoolean true)
           then readFileSync im w p else readFile_outcome im w p) with
    | Normal j => parseJson im j
    | Throw e => Throw e
    end.
Proof.
  unfold awaited, readFile_outcome.
  destruct (strict_equals _ _) eqn:Hb.
  - apply blocking_iff in Hb. subst s. rewrite readJson_silent_blocking.
    destruct (readFileSync im w p) as [j|e]; [|reflexivity].
    destruct (parseJson im j); reflexivity.
  - apply non_blocking_iff in Hb.
    rewrite readJson_silent_non_blocking by exact Hb.
    destruct (readFile im w p) as [[j|e]|e]; try reflexivity.
    simpl. destruct (parseJson im j); reflexivity.
Qed.

(** The read of the selected mode handed over the text [j]. *)
Lemma mode_read_text im w p s j :
  (if strict_equals (default_param s (JsBoolean false)) (JsBoolean true)
   then readFileSync im w p else readFile_outcome im w p) = Normal j ->
  (s = JsBoolean true /\ readFileSync im w p = Normal j)
  \/ (s <> JsBoolean true /\ readFile im w p = Normal (Fulfilled j)).
Proof.
  destruct (strict_equals _ _) eqn:Hb; intros H.
  - left. split; [now apply blocking_iff | exact H].
  - right. split; [now apply non_blocking_iff|].
    unfold readFile_outcome in H.
    destruct (readFile im w p) as [[j'|e]|e]; simpl in H; try discriminate.
    now injection H as ->.
Qed.

End Pieces.

(** ** The contract of [readJson] *)
Section Contract.

Context {Err T World : Type}.
Implicit Types (lg : Logger Err) (im : Imports Err T World) (w : World).
Implicit Types (p j : string) (s : JsValue) (v : T) (e : Err).

(** C1. When the read of [p] succeeds with text [j] and [j] parses to [v],
    [readJson(p, true)] returns exactly [v], and [readJson(p)] and
    [readJson(p, false)] return a promise that is fulfilled with [v]. *)
Theorem readJson_returns_parsed lg im w p j v :
  LoggerContract lg ->
  parseJson im j = Normal v ->
  (readFileSync im w p = Normal j ->
     completion (readJson lg im w p (JsBoolean true)) = Normal (Value v))
  /\
  (readFile im w p = Normal (Fulfilled j) ->
     forall s, s = JsUndefined \/ s = JsBoolean false ->
       exists q, completion (readJson lg im w p s) = Normal (Deferred q)
                 /\ state q = Fulfilled v).
Proof.
  intros HL Hparse. split.
  - intros Hread.
    rewrite readJson_completion by exact HL.
    rewrite readJson_silent_blocking, Hread, Hparse. reflexivity.
  - intros Hread s Hs.
    assert (s <> JsBoolean true) as Hnb by (destruct Hs; subst s; discriminate).
    rewrite readJson_completion by exact HL.
    rewrite readJson_silent_non_blocking, Hread, Hparse by exact Hnb.
    eexists. split; reflexivity.
Qed.

(** C2. Mode equivalence: when both read primitives see the same file, the
    blocking call and any non-blocking call end with the same value or the
    same error; the blocking call never hands back a promise and the
    non-blocking call never hands back a bare value. *)
Theorem readJson_mode_equivalence lg im w p s :
  LoggerContract lg ->
  SameFile im w p ->
  s <> JsBoolean true ->
  awaited (readJson lg im w p (JsBoolean true)) = awaited (readJson lg im w p s)
  /\ (forall q, completion (readJson lg im w p (JsBoolean true)) <> Normal (Deferred q))
  /\ (forall v, completion (readJson lg im w p s) <> Normal (Value v)).
Proof.
  intros HL Hsame Hs.
  rewrite (readJson_awaited lg im w p s), (readJson_completion lg im w p s) by exact HL.
  rewrite (readJson_awaited lg im w p (JsBoolean true)),
    (readJson_completion lg im w p (JsBoolean true)) by exact HL.
  unfold awaited.
  rewrite (readJson_silent_non_blocking im w p s) by exact Hs.
  rewrite readJson_silent_blocking.
  unfold SameFile, readFile_outcome in Hsame. rewrite <- Hsame.
  destruct (readFile im w p) as [[j|e]|e]; simpl.
  - destruct (parseJson im j) as [v|e]; simpl;
      (split; [reflexivity | split; intros; discriminate]).
  - split; [reflexivity | split; intros; discriminate].
  - split; [reflexivity | split; intros; discriminate].
Qed.

(** C3. When the read of [p] fails with [e], the call fails with [e]
    itself, thrown by the blocking call and delivered as the rejection
    reason (or thrown, if the read primitive throws) by the non-blocking
    call; the parse primitive is not called. *)
Theorem readJson_read_failure lg im w p e :
  LoggerContract lg ->
  (readFileSync im w p = Throw e ->
     completion (readJson lg im w p (JsBoolean true)) = Throw e
     /\ awaited (readJson lg im w p (JsBoolean true)) = Throw e
     /\ never_parses (readJson lg im w p (JsBoolean true)))
  /\
  (forall s, s <> JsBoolean true ->
     readFile im w p = Normal (Rejected e) ->
     (exists q, completion (readJson lg im w p s) = Normal (Deferred q)
                /\ state q = Rejected e)
     /\ awaited (readJson lg im w p s) = Throw e
     /\ never_parses (readJson lg im w p s))
  /\
  (forall s, s <> JsBoolean true ->
     readFile im w p = Throw e ->
     completion (readJson lg im w p s) = Throw e
     /\ awaited (readJson lg im w p s) = Throw e
     /\ never_parses (readJson lg im w p s)).
Proof.
  intros HL. split; [|split].
  - intros Hread. unfold never_parses.
    rewrite readJson_completion, readJson_awaited, readJson_all_calls by exact HL.
    rewrite filter_app, log_call_no_parse.
    unfold awaited, all_calls.
    rewrite readJson_silent_blocking, Hread.
    repeat split; reflexivity.
  - intros s Hs Hread. unfold never_parses.
    rewrite readJson_completion, readJson_awaited, readJson_all_calls by exact HL.
    rewrite filter_app, log_call_no_parse.
    unfold awaited, all_calls.
    rewrite readJson_silent_non_blocking, Hread by exact Hs.
    split; [eexists; split; reflexivity | split; reflexivity].
  - intros s Hs Hread. unfold never_parses.
    rewrite readJson_completion, readJson_awaited, readJson_all_calls by exact HL.
    rewrite filter_app, log_call_no_parse.
    unfold awaited, all_calls.
    rewrite readJson_silent_non_blocking, Hread by exact Hs.
    repeat split; reflexivity.
Qed.

(** C4. When the text [j] of the file is rejected by the parse primitive
    with [e], the blocking call throws [e] at the call site and the
    non-blocking call returns a promise rejected with [e]; neither ends
    with a value of any kind. *)
Theorem readJson_parse_failure lg im w p j e :
  LoggerContract lg ->
  parseJson im j = Throw e ->
  (readFileSync im w p = Normal j ->
     completion (readJson lg im w p (JsBoolean true)) = Throw e
     /\ forall v, awaited (readJson lg im w p (JsBoolean true)) <> Normal v)
  /\
  (forall s, s <> JsBoolean true ->
     readFile im w p = Normal (Fulfilled j) ->
     (exists q, completion (readJson lg im w p s) = Normal (Deferred q)
                /\ state q = Rejected e)
     /\ forall v, awaited (readJson lg im w p s) <> Normal v).
Proof.
  intros HL Hparse. split.
  - intros Hread.
    rewrite readJson_completion, readJson_awaited by exact HL.
    unfold awaited.
    rewrite readJson_silent_blocking, Hread, Hparse. simpl.
    split; [reflexivity | intros v; discriminate].
  - intros s Hs Hread.
    rewrite readJson_completion, readJson_awaited by exact HL.
    unfold awaited.
    rewrite readJson_silent_non_blocking, Hread, Hparse by exact Hs. simpl.
    split; [eexists; split; reflexivity | intros v; discriminate].
Qed.


(** C6. With the mode argument omitted the call is the call with [false]:
    it reads with the non-blocking primitive and, once the logging line and
    the read primitive have returned, hands back a promise of the decoded
    value: the promise is fulfilled with what the parse primitive returns on
    the text read, rejected with what it throws, and rejected with the read's
    reason when the read is rejected.  A call that hands back a bare value
    was given exactly [true]. *)
Theorem readJson_default_non_blocking lg im w p :
  readJson lg im w p JsUndefined = readJson lg im w p (JsBoolean false)
  /\
  (forall q, ~ In (CallReadFileSync q) (all_calls (readJson lg im w p JsUndefined)))
  /\
  (LoggerContract lg ->
     forall st, readFile im w p = Normal st ->
       exists q, completion (readJson lg im w p JsUndefined) = Normal (Deferred q)
                 /\ state q
                    = match st with
                      | Fulfilled j =>
                          match parseJson im j with
                          | Normal v => Fulfilled v
                          | Throw e => Rejected e
                          end
                      | Rejected e => Rejected e
                      end
                 /\ In (CallReadFile p) (calls (readJson lg im w p JsUndefined)))
  /\
  (forall s v, completion (readJson lg im w p s) = Normal (Value v) ->
               s = JsBoolean true).
Proof.
  split; [reflexivity|]. split; [|split].
  - intros q Hin.
    rewrite readJson_all_calls_split in Hin. apply in_app_or in Hin.
    destruct Hin as [Hin | Hin].
    + pose proof (filter_nil_not_in _ _ _ (log_call_no_read lg p _) Hin) as Hc.
      discriminate.
    + destruct (completion (log_call lg p _)); [|destruct Hin].
      rewrite readJson_silent_all_calls in Hin. simpl in Hin.
      destruct Hin as [Hin | Hin]; [discriminate|].
      destruct (readFile im w p) as [[j|e]|e]; simpl in Hin;
        try destruct Hin as [Hin | []]; try discriminate; destruct Hin.
  - intros HL st Hread.
    rewrite readJson_completion, readJson_calls by exact HL.
    rewrite readJson_silent_non_blocking, Hread by discriminate.
    destruct st as [j|e]; (eexists; split; [reflexivity|]);
      (split; [reflexivity|]); apply in_or_app; right; now left.
  - intros s v Hv.
    destruct (strict_equals (default_param s (JsBoolean false)) (JsBoolean true))
      eqn:Hb; [now apply blocking_iff|].
    apply non_blocking_iff in Hb. exfalso.
    rewrite readJson_split in Hv. unfold bind in Hv.
    destruct (completion (log_call lg p _)); cbn [completion] in Hv;
      [|discriminate].
    rewrite readJson_silent_non_blocking in Hv by exact Hb.
    destruct (readFile im w p) as [[j|e]|e]; discriminate.
Qed.

(** C7. With the hook unset the logging line returns without calling
    anything, no hook call appears in the run, and the run ends exactly as
    it does with any hook that keeps its contract: same completion, same
    awaited value, same calls after the hook's. *)
Theorem readJson_tolerates_unset_hook im w p s :
  log_call (@silent_logger Err) p (default_param s (JsBoolean false)) = ret tt
  /\ filter is_log (all_calls (readJson silent_logger im w p s)) = []
  /\ (forall lg, LoggerContract lg ->
        completion (readJson silent_logger im w p s)
        = completion (readJson lg im w p s)
        /\ awaited (readJson silent_logger im w p s)
           = awaited (readJson lg im w p s)
        /\ all_calls (readJson silent_logger im w p s)
           = filter (fun c => negb (is_log c)) (all_calls (readJson lg im w p s))).
Proof.
  split; [reflexivity|]. split; [apply readJson_silent_no_log|].
  intros lg HL.
  split; [symmetry; now apply readJson_completion|].
  split; [symmetry; now apply readJson_awaited|].
  rewrite (readJson_all_calls lg) by exact HL.
  rewrite filter_app.
  replace (filter (fun c => negb (is_log c)) (calls (log_call lg p _)))
    with (@nil Call)
    by (destruct (log_call_calls lg p (default_param s (JsBoolean false)))
          as [-> | ->]; reflexivity).
  simpl.
  rewrite readJson_silent_all_calls.
  destruct (strict_equals _ _).
  - destruct (readFileSync im w p); reflexivity.
  - destruct (readFile im w p) as [[j|e]|e]; reflexivity.
Qed.

(** C8. Only the hook sees the truncated path: every call to a read
    primitive carries the caller's path itself, the hook's argument is
    [path.slice(-32)], and once the logging line has returned the read
    primitive of the selected mode is called with the caller's path.  The
    read primitive is applied to that very path: the outcome of the call is
    the parse of what the primitive answers at the caller's path, and what
    the primitives answer at any other path, the truncated one included,
    does not matter to the run. *)
Theorem readJson_reads_untruncated_path lg im w p s :
  (forall q, In (CallReadFileSync q) (all_calls (readJson lg im w p s))
             \/ In (CallReadFile q) (all_calls (readJson lg im w p s)) ->
             q = p)
  /\
  (forall m a, In (CallLogMethodArgs m a) (all_calls (readJson lg im w p s)) ->
               args_path a = JsString.slice p (-32))
  /\
  (LoggerContract lg ->
     In (if strict_equals (default_param s (JsBoolean false)) (JsBoolean true)
         then CallReadFileSync p else CallReadFile p)
        (calls (readJson lg im w p s)))
  /\
  (LoggerContract lg ->
     awaited (readJson lg im w p s)
     = match (if strict_equals (default_param s (JsBoolean false)) (JsBoolean true)
              then readFileSync im w p else readFile_outcome im w p) with
       | Normal j => parseJson im j
       | Throw e => Throw e
       end)
  /\
  (forall im',
      (forall j, parseJson im' j = parseJson im j) ->
      readFileSync im' w p = readFileSync im w p ->
      readFile im' w p = readFile im w p ->
      readJson lg im' w p s = readJson lg im w p s).
Proof.
  assert (Hsilent : forall c, In c (all_calls (readJson silent_logger im w p s)) ->
                              c = CallReadFileSync p \/ c = CallReadFile p
                              \/ is_parse c = true).
  { intros c Hin. rewrite readJson_silent_all_calls in Hin.
    destruct (strict_equals _ _); simpl in Hin.
    - destruct Hin as [<- | Hin]; [now left|].
      destruct (readFileSync im w p); simpl in Hin;
        [destruct Hin as [<- | []]; right; right; reflexivity | destruct Hin].
    - destruct Hin as [<- | Hin]; [right; now left|].
      destruct (readFile im w p) as [[j|e]|e]; simpl in Hin;
        try (destruct Hin as [<- | []]; right; right; reflexivity);
        destruct Hin. }
  assert (Hall : forall c, In c (all_calls (readJson lg im w p s)) ->
                           In c (calls (log_call lg p (default_param s (JsBoolean false))))
                           \/ In c (all_calls (readJson silent_logger im w p s))).
  { intros c Hin. rewrite readJson_all_calls_split in Hin.
    apply in_app_or in Hin. destruct Hin as [Hin | Hin]; [now left|].
    destruct (completion (log_call lg p _)); [now right | destruct Hin]. }
  split; [|split; [|split; [|split]]].
  - intros q [Hin | Hin]; apply Hall in Hin; destruct Hin as [Hin | Hin].
    + pose proof (filter_nil_not_in _ _ _ (log_call_no_read lg p _) Hin).
      discriminate.
    + apply Hsilent in Hin. destruct Hin as [Hq | [Hq | Hq]];
        [now injection Hq | discriminate | discriminate].
    + pose proof (filter_nil_not_in _ _ _ (log_call_no_read lg p _) Hin).
      discriminate.
    + apply Hsilent in Hin. destruct Hin as [Hq | [Hq | Hq]];
        [discriminate | now injection Hq | discriminate].
  - intros m a Hin. apply Hall in Hin. destruct Hin as [Hin | Hin].
    + destruct (log_call_calls lg p (default_param s (JsBoolean false))) as [Hl | Hl];
        rewrite Hl in Hin; simpl in Hin; [destruct Hin|].
      destruct Hin as [Hin | []]. now injection Hin as _ <-.
    + apply Hsilent in Hin. destruct Hin as [Hq | [Hq | Hq]]; discriminate.
  - intros HL. rewrite readJson_calls by exact HL.
    apply in_or_app. right.
    destruct (strict_equals _ _) eqn:Hb.
    + apply blocking_iff in Hb. subst s. rewrite readJson_silent_blocking.
      destruct (readFileSync im w p) as [j|e]; [|now left].
      destruct (parseJson im j); now left.
    + apply non_blocking_iff in Hb.
      rewrite readJson_silent_non_blocking by exact Hb.
      destruct (readFile im w p) as [[j|e]|e]; now left.
  - intros HL.
    rewrite readJson_awaited_split, readJson_silent_awaited.
    now rewrite (log_call_returns lg p _ HL).
  - intros im' Hparse Hsync Hasync.
    assert (Hrun : readJson silent_logger im' w p s
                   = readJson silent_logger im w p s).
    { destruct (strict_equals (default_param s (JsBoolean false)) (JsBoolean true))
        eqn:Hb.
      - apply blocking_iff in Hb. subst s.
        rewrite !readJson_silent_blocking, Hsync.
        destruct (readFileSync im w p) as [j|e]; [|reflexivity].
        now rewrite Hparse.
      - apply non_blocking_iff in Hb.
        rewrite !readJson_silent_non_blocking by exact Hb. rewrite Hasync.
        destruct (readFile im w p) as [[j|e]|e]; try reflexivity.
        now rewrite Hparse. }
    rewrite (readJson_split lg im'), (readJson_split lg im), Hrun.
    reflexivity.
Qed.

(** C9. Two calls with the same path and mode, made in two states of
    storage in which the file reads the same, end with the same value or
    the same error; in fact the two runs are the same run. *)
Theorem readJson_repeatable lg im w1 w2 p s :
  Unchanged im w1 w2 p ->
  awaited (readJson lg im w1 p s) = awaited (readJson lg im w2 p s)
  /\ readJson lg im w1 p s = readJson lg im w2 p s.
Proof.
  intros [Hsync Hasync].
  assert (readJson lg im w1 p s = readJson lg im w2 p s) as Heq.
  { unfold readJson, call_readFileSync, call_readFile.
    rewrite Hsync, Hasync. reflexivity. }
  split; [now rewrite Heq | exact Heq].
Qed.

(** C10. Once the logging line has returned, the blocking read is called
    exactly when the second argument is [true], and the non-blocking read
    exactly when it is anything else (absent, [false], [null], a number, a
    string); a call with a non-[true] argument never hands back a bare
    value and a call with [true] never hands back a promise. *)
Theorem readJson_dispatch_strict_true lg im w p s :
  LoggerContract lg ->
  (In (CallReadFileSync p) (calls (readJson lg im w p s)) <-> s = JsBoolean true)
  /\ (In (CallReadFile p) (calls (readJson lg im w p s)) <-> s <> JsBoolean true)
  /\ (s <> JsBoolean true ->
      forall v, completion (readJson lg im w p s) <> Normal (Value v))
  /\ (s = JsBoolean true ->
      forall q, completion (readJson lg im w p s) <> Normal (Deferred q)).
Proof.
  intros HL.
  rewrite readJson_calls, readJson_completion by exact HL.
  assert (Hlog : forall c, is_read c = true ->
                           ~ In c (calls (log_call lg p (default_param s (JsBoolean false))))).
  { intros c Hc Hin.
    rewrite (filter_nil_not_in _ _ _ (log_call_no_read lg p _) Hin) in Hc.
    discriminate. }
  destruct (strict_equals (default_param s (JsBoolean false)) (JsBoolean true))
    eqn:Hb.
  - apply blocking_iff in Hb. subst s.
    rewrite readJson_silent_blocking.
    split; [|split; [|split]].
    + split; [reflexivity|]. intros _. apply in_or_app. right.
      destruct (readFileSync im w p) as [j|e]; [|now left].
      destruct (parseJson im j); now left.
    + split; [|intros H; now contradiction H]. intros Hin. exfalso.
      apply in_app_or in Hin. destruct Hin as [Hin | Hin].
      * now apply (Hlog (CallReadFile p)).
      * destruct (readFileSync im w p) as [j|e];
          [destruct (parseJson im j)|]; simpl in Hin;
          repeat (destruct Hin as [Hin | Hin]; [discriminate|]); destruct Hin.
    + intros H. now contradiction H.
    + intros _ q.
      destruct (readFileSync im w p) as [j|e];
        [destruct (parseJson im j)|]; discriminate.
  - apply non_blocking_iff in Hb.
    rewrite readJson_silent_non_blocking by exact Hb.
    split; [|split; [|split]].
    + split; [|intros H; now contradiction Hb]. intros Hin. exfalso.
      apply in_app_or in Hin. destruct Hin as [Hin | Hin].
      * now apply (Hlog (CallReadFileSync p)).
      * destruct (readFile im w p) as [[j|e]|e]; simpl in Hin;
          repeat (destruct Hin as [Hin | Hin]; [discriminate|]); destruct Hin.
    + split; [intros _; exact Hb|]. intros _. apply in_or_app. right.
      destruct (readFile im w p) as [[j|e]|e]; now left.
    + intros _ v. destruct (readFile im w p) as [[j|e]|e]; discriminate.
    + intros H. now contradiction Hb.
Qed.

End Contract.

(** ** The contract on the sample collaborators *)

Lemma debug_logger_contract : LoggerContract Sample.debug_logger.
Proof.
  intros hook H m a. injection H as <-. reflexivity.
Defined.

Lemma silent_logger_contract {Err : Type} : LoggerContract (@silent_logger Err).
Proof.
  intros hook H. discriminate H.
Defined.

(** A hook that throws breaks the contract, and the call with it. *)
Lemma broken_logger_no_contract : ~ LoggerContract Sample.broken_logger.
Proof.
  intros HL.
  specialize (HL _ eq_refl "readJson" {| args_path := ""; args_sync := JsNull |}).
  discriminate HL.
Qed.

(** Values that are not [true] take the promise branch, truthy or not. *)
Example sample_truthy_is_not_true :
  map (fun s => calls (readJson silent_logger Sample.imports Sample.disk "config.json" s))
      [JsNumber 1; JsString "true"; JsObject 0; JsNull; JsBoolean false; JsUndefined]
  = repeat [CallReadFile "config.json"] 6.
Proof. reflexivity. Qed.

Lemma readJson_returns_parsed_witness :
  LoggerContract Sample.debug_logger
  /\ parseJson Sample.imports "{}" = Normal (Sample.JsonObject [])
  /\ completion (readJson Sample.debug_logger Sample.imports Sample.disk
                          "config.json" (JsBoolean true))
     = Normal (Value (Sample.JsonObject []))
  /\ exists q,
       completion (readJson Sample.debug_logger Sample.imports Sample.disk
                            "config.json" JsUndefined)
       = Normal (Deferred q)
       /\ state q = Fulfilled (Sample.JsonObject []).
Proof.
  split; [exact debug_logger_contract|]. split; [reflexivity|].
  destruct (readJson_returns_parsed Sample.debug_logger Sample.imports Sample.disk
              "config.json" "{}" (Sample.JsonObject [])
              debug_logger_contract eq_refl) as [Hsync Hasync].
  split.
  - apply Hsync. reflexivity.
  - apply (Hasync eq_refl JsUndefined). left. reflexivity.
Defined.

Lemma readJson_mode_equivalence_witness :
  LoggerContract Sample.debug_logger
  /\ SameFile Sample.imports Sample.disk "bad.json"
  /\ JsUndefined <> JsBoolean true
  /\ awaited (readJson Sample.debug_logger Sample.imports Sample.disk
                       "bad.json" (JsBoolean true))
     = awaited (readJson Sample.debug_logger Sample.imports Sample.disk
                         "bad.json" JsUndefined).
Proof.
  assert (Hs : JsUndefined <> JsBoolean true) by discriminate.
  assert (Hf : SameFile Sample.imports Sample.disk "bad.json") by reflexivity.
  split; [exact debug_logger_contract|]. split; [exact Hf|]. split; [exact Hs|].
  exact (proj1 (readJson_mode_equivalence Sample.debug_logger Sample.imports
                  Sample.disk "bad.json" JsUndefined
                  debug_logger_contract Hf Hs)).
Defined.

Lemma readJson_read_failure_witness :
  LoggerContract Sample.debug_logger
  /\ readFileSync Sample.imports Sample.disk "missing.json" = Throw "ENOENT"
  /\ readFile Sample.imports Sample.disk "missing.json" = Normal (Rejected "ENOENT")
  /\ completion (readJson Sample.debug_logger Sample.imports Sample.disk
                          "missing.json" (JsBoolean true))
     = Throw "ENOENT"
  /\ never_parses (readJson Sample.debug_logger Sample.imports Sample.disk
                            "missing.json" (JsBoolean true))
  /\ awaited (readJson Sample.debug_logger Sample.imports Sample.disk
                       "missing.json" JsUndefined)
     = Throw "ENOENT"
  /\ never_parses (readJson Sample.debug_logger Sample.imports Sample.disk
                            "missing.json" JsUndefined).
Proof.
  destruct (readJson_read_failure Sample.debug_logger Sample.imports Sample.disk
              "missing.json" "ENOENT" debug_logger_contract)
    as [Hsync [Hasync _]].
  destruct (Hsync eq_refl) as [Hc [_ Hn]].
  assert (Hs : JsUndefined <> JsBoolean true) by discriminate.
  destruct (Hasync JsUndefined Hs eq_refl) as [_ [Ha Hna]].
  split; [exact debug_logger_contract|].
  split; [reflexivity|]. split; [reflexivity|].
  split; [exact Hc|]. split; [exact Hn|]. split; [exact Ha | exact Hna].
Defined.

Lemma readJson_parse_failure_witness :
  LoggerContract Sample.debug_logger
  /\ parseJson Sample.imports "{a:}" = Throw "invalid_json"
  /\ completion (readJson Sample.debug_logger Sample.imports Sample.disk
                          "bad.json" (JsBoolean true))
     = Throw "invalid_json"
  /\ exists q,
       completion (readJson Sample.debug_logger Sample.imports Sample.disk
                            "bad.json" JsUndefined)
       = Normal (Deferred q)
       /\ state q = Rejected "invalid_json".
Proof.
  destruct (readJson_parse_failure Sample.debug_logger Sample.imports Sample.disk
              "bad.json" "{a:}" "invalid_json" debug_logger_contract eq_refl)
    as [Hsync Hasync].
  assert (Hs : JsUndefined <> JsBoolean true) by discriminate.
  split; [exact debug_logger_contract|]. split; [reflexivity|].
  split.
  - exact (proj1 (Hsync eq_refl)).
  - exact (proj1 (Hasync JsUndefined Hs eq_refl)).
Defined.



Lemma readJson_default_non_blocking_witness :
  LoggerContract Sample.debug_logger
  /\ readFile Sample.imports Sample.disk "config.json" = Normal (Fulfilled "{}")
  /\ exists q,
       completion (readJson Sample.debug_logger Sample.imports Sample.disk
                            "config.json" JsUndefined)
       = Normal (Deferred q)
       /\ state q = Fulfilled (Sample.JsonObject [])
       /\ In (CallReadFile "config.json")
             (calls (readJson Sample.debug_logger Sample.imports Sample.disk
                              "config.json" JsUndefined)).
Proof.
  destruct (readJson_default_non_blocking Sample.debug_logger Sample.imports
              Sample.disk "config.json") as [_ [_ [Hdeferred _]]].
  split; [exact debug_logger_contract|]. split; [reflexivity|].
  exact (Hdeferred debug_logger_contract (Fulfilled "{}") eq_refl).
Defined.

Lemma readJson_tolerates_unset_hook_witness :
  LoggerContract Sample.debug_logger
  /\ completion (readJson silent_logger Sample.imports Sample.disk
                          "config.json" (JsBoolean true))
     = completion (readJson Sample.debug_logger Sample.imports Sample.disk
                            "config.json" (JsBoolean true))
  /\ awaited (readJson silent_logger Sample.imports Sample.disk
                       "config.json" (JsBoolean true))
     = awaited (readJson Sample.debug_logger Sample.imports Sample.disk
                         "config.json" (JsBoolean true)).
Proof.
  destruct (readJson_tolerates_unset_hook Sample.imports Sample.disk
              "config.json" (JsBoolean true)) as [_ [_ Hsame]].
  destruct (Hsame Sample.debug_logger debug_logger_contract) as [Hc [Ha _]].
  split; [exact debug_logger_contract|]. split; [exact Hc | exact Ha].
Defined.

Lemma readJson_reads_untruncated_path_witness :
  LoggerContract Sample.debug_logger
  /\ In (CallReadFileSync Sample.long_path)
        (calls (readJson Sample.debug_logger Sample.imports Sample.disk
                         Sample.long_path (JsBoolean true)))
  /\ JsString.slice Sample.long_path (-32) <> Sample.long_path
  /\ readFileSync Sample.imports Sample.disk (JsString.slice Sample.long_path (-32))
     = Throw "ENOENT"
  /\ awaited (readJson Sample.debug_logger Sample.imports Sample.disk
                       Sample.long_path (JsBoolean true))
     = Normal (Sample.JsonArray [Sample.JsonNumber 1]).
Proof.
  destruct (readJson_reads_untruncated_path Sample.debug_logger Sample.imports
              Sample.disk Sample.long_path (JsBoolean true))
    as [_ [_ [Hread [Hout _]]]].
  split; [exact debug_logger_contract|].
  split; [exact (Hread debug_logger_contract)|].
  split; [discriminate|]. split; [reflexivity|].
  exact (Hout debug_logger_contract).
Defined.

Lemma readJson_repeatable_witness :
  Unchanged Sample.imports Sample.disk Sample.disk_later "config.json"
  /\ awaited (readJson Sample.debug_logger Sample.imports Sample.disk
                       "config.json" JsUndefined)
     = awaited (readJson Sample.debug_logger Sample.imports Sample.disk_later
                         "config.json" JsUndefined).
Proof.
  assert (Hu : Unchanged Sample.imports Sample.disk Sample.disk_later "config.json")
    by (split; reflexivity).
  split; [exact Hu|].
  exact (proj1 (readJson_repeatable Sample.debug_logger Sample.imports
                  Sample.disk Sample.disk_later "config.json" JsUndefined Hu)).
Defined.

Lemma readJson_dispatch_strict_true_witness :
  LoggerContract Sample.debug_logger
  /\ JsString "true" <> JsBoolean true
  /\ In (CallReadFile "config.json")
        (calls (readJson Sample.debug_logger Sample.imports Sample.disk
                         "config.json" (JsString "true")))
  /\ ~ In (CallReadFileSync "config.json")
          (calls (readJson Sample.debug_logger Sample.imports Sample.disk
                           "config.json" (JsString "true"))).
Proof.
  destruct (readJson_dispatch_strict_true Sample.debug_logger Sample.imports
              Sample.disk "config.json" (JsString "true") debug_logger_contract)
    as [Hsync [Hasync _]].
  assert (Hs : JsString "true" <> JsBoolean true) by discriminate.
  split; [exact debug_logger_contract|]. split; [exact Hs|].
  split.
  - apply Hasync. exact Hs.
  - intros Hin. apply Hs. apply Hsync. exact Hin.
Defined.


(** ** Further properties of [readJson]

    What the four lines of the loader do beyond its stated contract: what a
    throwing hook costs, where a value or an error of the call can come
    from, and what the parse primitive is given. *)
Section Further.

Context {Err T World : Type}.
Implicit Types (lg : Logger Err) (im : Imports Err T World) (w : World).
Implicit Types (p j : string) (s : JsValue) (v : T) (e : Err).

(** X1. An unguarded hook: when the hook is set and throws [e] on the
    snapshot of this call, the call throws [e] at the call site in either
    mode (the non-blocking call does not return a rejected promise), and the
    hook call is the only call made: nothing is read and nothing is parsed. *)
Theorem readJson_hook_throw_aborts lg im w p s hook e :
  logMethodArgs lg = Some hook ->
  hook "readJson" {| args_path := JsString.slice p (-32);
                     args_sync := default_param s (JsBoolean false) |}
  = Throw e ->
  readJson lg im w p s
  = mkEff [CallLogMethodArgs "readJson"
             {| args_path := JsString.slice p (-32);
                args_sync := default_param s (JsBoolean false) |}]
          (Throw e)
  /\ awaited (readJson lg im w p s) = Throw e
  /\ all_calls (readJson lg im w p s)
     = [CallLogMethodArgs "readJson"
          {| args_path := JsString.slice p (-32);
             args_sync := default_param s (JsBoolean false) |}].
Proof.
  intros Hset Hthrow. destruct lg as [[h|]]; simpl in Hset; [|discriminate].
  injection Hset as ->.
  assert (readJson (mkLogger (Some hook)) im w p s
          = mkEff [CallLogMethodArgs "readJson"
                     {| args_path := JsString.slice p (-32);
                        args_sync := default_param s (JsBoolean false) |}]
                  (Throw e)) as Heq.
  { rewrite readJson_split. unfold log_call, optional_call, call, bind.
    cbn [logMethodArgs completion calls]. rewrite Hthrow. reflexivity. }
  rewrite Heq. repeat split.
Qed.

(** X2. The awaited outcome of a call is the hook's outcome, then the read
    of the selected mode, then the parse of the text read, each stage run
    only if the one before returned: the first throw or rejection is the
    outcome, and otherwise the outcome is the parser's. *)
Theorem readJson_awaited_composition lg im w p s :
  awaited (readJson lg im w p s)
  = match completion (log_call lg p (default_param s (JsBoolean false))) with
    | Throw e => Throw e
    | Normal _ =>
        match (if strict_equals (default_param s (JsBoolean false)) (JsBoolean true)
               then readFileSync im w p else readFile_outcome im w p) with
        | Normal j => parseJson im j
        | Throw e => Throw e
        end
    end.
Proof.
  rewrite readJson_awaited_split, readJson_silent_awaited.
  destruct (completion (log_call lg p _)); reflexivity.
Qed.

(** X3. No fabricated value: whatever the hook does, a call that ends with a
    value [v] read some text [j] with the primitive of its mode, and [v] is
    what the parse primitive returned on [j]. *)
Theorem readJson_value_comes_from_file lg im w p s v :
  awaited (readJson lg im w p s) = Normal v ->
  exists j,
    parseJson im j = Normal v
    /\ ((s = JsBoolean true /\ readFileSync im w p = Normal j)
        \/ (s <> JsBoolean true /\ readFile im w p = Normal (Fulfilled j))).
Proof.
  rewrite readJson_awaited_split, readJson_silent_awaited.
  destruct (completion (log_call lg p _)); [|discriminate].
  destruct (if strict_equals _ _ then _ else _) as [j|e0] eqn:Hread;
    [|discriminate].
  intros Hparse. exists j. split; [exact Hparse|].
  now apply mode_read_text.
Qed.

(** X4. No error of the loader's own: an error [e] that a call ends with was
    thrown by the hook, or is the error of the read of the selected mode, or
    was thrown by the parse primitive on the text that was read. *)
Theorem readJson_error_provenance lg im w p s e :
  awaited (readJson lg im w p s) = Throw e ->
  completion (log_call lg p (default_param s (JsBoolean false))) = Throw e
  \/ (s = JsBoolean true /\ readFileSync im w p = Throw e)
  \/ (s <> JsBoolean true /\ readFile_outcome im w p = Throw e)
  \/ (exists j,
        parseJson im j = Throw e
        /\ ((s = JsBoolean true /\ readFileSync im w p = Normal j)
            \/ (s <> JsBoolean true /\ readFile im w p = Normal (Fulfilled j)))).
Proof.
  rewrite readJson_awaited_split, readJson_silent_awaited.
  destruct (completion (log_call lg p _)) as [u|e0];
    [|intros H; left; now injection H as ->].
  destruct (if strict_equals _ _ then _ else _) as [j|e0] eqn:Hread.
  - intros Hparse. right. right. right. exists j.
    split; [exact Hparse | now apply mode_read_text].
  - intros H. injection H as ->. right.
    destruct (strict_equals _ _) eqn:Hb.
    + left. split; [now apply blocking_iff | exact Hread].
    + right. left. split; [now apply non_blocking_iff | exact Hread].
Qed.


(** X5. The parse primitive is given the text that was read and nothing
    else: a parse call in a run carries the text the read primitive of the
    selected mode handed over, it is the last call of the run, the read call
    with the caller's path comes before it, and no other parse call does;
    and the parse primitive is applied to that very text: the call ends as
    the parse primitive ends on it. *)
Theorem readJson_parses_the_text_read lg im w p s c :
  In (CallParseJson c) (all_calls (readJson lg im w p s)) ->
  ((s = JsBoolean true /\ readFileSync im w p = Normal c)
   \/ (s <> JsBoolean true /\ readFile im w p = Normal (Fulfilled c)))
  /\ (exists pre,
        all_calls (readJson lg im w p s) = pre ++ [CallParseJson c]
        /\ filter is_parse pre = []
        /\ In (if strict_equals (default_param s (JsBoolean false)) (JsBoolean true)
               then CallReadFileSync p else CallReadFile p) pre)
  /\ awaited (readJson lg im w p s) = parseJson im c.
Proof.
  rewrite readJson_all_calls_split, readJson_awaited_split, readJson_silent_awaited.
  unfold readFile_outcome.
  pose proof (log_call_no_parse lg p (default_param s (JsBoolean false))) as Hlog.
  intros Hin. apply in_app_or in Hin. destruct Hin as [Hin | Hin].
  { pose proof (filter_nil_not_in is_parse _ _ Hlog Hin) as Hc. discriminate. }
  destruct (completion (log_call lg p _)); [|destruct Hin].
  rewrite readJson_silent_all_calls in *.
  destruct (strict_equals _ _) eqn:Hb.
  - apply blocking_iff in Hb.
    destruct Hin as [Hin | Hin]; [discriminate|].
    destruct (readFileSync im w p) as [j|e]; [|destruct Hin].
    destruct Hin as [Hin | []]. injection Hin as ->.
    split; [left; split; [exact Hb | reflexivity]|].
    split; [|reflexivity].
    exists (calls (log_call lg p (default_param s (JsBoolean false)))
            ++ [CallReadFileSync p]).
    split; [now rewrite <- app_assoc|].
    split; [rewrite filter_app, Hlog; reflexivity|].
    apply in_or_app. right. now left.
  - apply non_blocking_iff in Hb.
    destruct Hin as [Hin | Hin]; [discriminate|].
    destruct (readFile im w p) as [[j|e]|e]; [|destruct Hin..].
    destruct Hin as [Hin | []]. injection Hin as ->.
    split; [right; split; [exact Hb | reflexivity]|].
    split; [|reflexivity].
    exists (calls (log_call lg p (default_param s (JsBoolean false)))
            ++ [CallReadFile p]).
    split; [now rewrite <- app_assoc|].
    split; [rewrite filter_app, Hlog; reflexivity|].
    apply in_or_app. right. now left.
Qed.

(** X6. In non-blocking mode nothing is parsed while the call runs: the
    calls made before [readJson] returns contain no parse call, which can
    only come later, as a reaction of the promise.  In blocking mode nothing
    is left for later. *)
Theorem readJson_non_blocking_defers_parse lg im w p s :
  (s <> JsBoolean true -> filter is_parse (calls (readJson lg im w p s)) = [])
  /\ (s = JsBoolean true ->
      all_calls (readJson lg im w p s) = calls (readJson lg im w p s)).
Proof.
  pose proof (log_call_no_parse lg p (default_param s (JsBoolean false))) as Hlog.
  split; intros Hs.
  - rewrite readJson_split. unfold bind.
    destruct (completion (log_call lg p _)); cbn [calls]; [|exact Hlog].
    rewrite filter_app, Hlog.
    rewrite readJson_silent_non_blocking by exact Hs.
    destruct (readFile im w p) as [[j|e]|e]; reflexivity.
  - subst s. unfold all_calls. rewrite readJson_split. unfold bind.
    destruct (completion (log_call lg p _)); cbn [calls completion];
      [|apply app_nil_r].
    rewrite readJson_silent_blocking.
    destruct (readFileSync im w p) as [j|e]; [|apply app_nil_r].
    destruct (parseJson im j); apply app_nil_r.
Qed.

(** X7. No retry: a run calls a read primitive at most once and the parse
    primitive at most once, and it calls a read primitive exactly once
    exactly when the logging line returned. *)
Theorem readJson_reads_once lg im w p s :
  (List.length (filter is_read (all_calls (readJson lg im w p s))) <= 1)%nat
  /\ (List.length (filter is_parse (all_calls (readJson lg im w p s))) <= 1)%nat
  /\ (completion (log_call lg p (default_param s (JsBoolean false))) = Normal tt
      <-> List.length (filter is_read (all_calls (readJson lg im w p s))) = 1%nat).
Proof.
  rewrite readJson_all_calls_split, !filter_app.
  rewrite log_call_no_read, log_call_no_parse. cbn [app].
  destruct (completion (log_call lg p _)) as [[]|e].
  - rewrite readJson_silent_all_calls.
    destruct (strict_equals _ _).
    + destruct (readFileSync im w p); simpl;
        (split; [lia | split; [lia | split; reflexivity]]).
    + destruct (readFile im w p) as [[j|e]|e]; simpl;
        (split; [lia | split; [lia | split; reflexivity]]).
  - simpl. split; [lia | split; [lia | split; discriminate]].
Qed.



End Further.

(** ** The further properties on the sample collaborators *)

Lemma readJson_hook_throw_aborts_witness :
  logMethodArgs Sample.broken_logger = Some (fun _ _ => Throw "console_closed")
  /\ readJson Sample.broken_logger Sample.imports Sample.disk "config.json" JsUndefined
     = mkEff [CallLogMethodArgs "readJson"
                {| args_path := "config.json"; args_sync := JsBoolean false |}]
             (Throw "console_closed")
  /\ awaited (readJson Sample.broken_logger Sample.imports Sample.disk
                       "config.json" JsUndefined)
     = Throw "console_closed".
Proof.
  destruct (readJson_hook_throw_aborts Sample.broken_logger Sample.imports
              Sample.disk "config.json" JsUndefined
              (fun _ _ => Throw "console_closed") "console_closed"
              eq_refl eq_refl) as [Hrun [Hawait _]].
  split; [reflexivity|]. split; [exact Hrun | exact Hawait].
Defined.

Lemma readJson_value_comes_from_file_witness :
  awaited (readJson Sample.debug_logger Sample.imports Sample.disk
                    "config.json" (JsBoolean true))
  = Normal (Sample.JsonObject [])
  /\ exists j,
       parseJson Sample.imports j = Normal (Sample.JsonObject [])
       /\ ((JsBoolean true = JsBoolean true
            /\ readFileSync Sample.imports Sample.disk "config.json" = Normal j)
           \/ (JsBoolean true <> JsBoolean true
               /\ readFile Sample.imports Sample.disk "config.json"
                  = Normal (Fulfilled j))).
Proof.
  split; [reflexivity|].
  exact (readJson_value_comes_from_file Sample.debug_logger Sample.imports
           Sample.disk "config.json" (JsBoolean true) (Sample.JsonObject [])
           eq_refl).
Defined.

Lemma readJson_error_provenance_witness :
  awaited (readJson Sample.debug_logger Sample.imports Sample.disk
                    "bad.json" JsUndefined)
  = Throw "invalid_json"
  /\ (completion (log_call Sample.debug_logger "bad.json"
                           (default_param JsUndefined (JsBoolean false)))
      = Throw "invalid_json"
      \/ (JsUndefined = JsBoolean true
          /\ readFileSync Sample.imports Sample.disk "bad.json" = Throw "invalid_json")
      \/ (JsUndefined <> JsBoolean true
          /\ readFile_outcome Sample.imports Sample.disk "bad.json"
             = Throw "invalid_json")
      \/ (exists j,
            parseJson Sample.imports j = Throw "invalid_json"
            /\ ((JsUndefined = JsBoolean true
                 /\ readFileSync Sample.imports Sample.disk "bad.json" = Normal j)
                \/ (JsUndefined <> JsBoolean true
                    /\ readFile Sample.imports Sample.disk "bad.json"
                       = Normal (Fulfilled j))))).
Proof.
  split; [reflexivity|].
  exact (readJson_error_provenance Sample.debug_logger Sample.imports
           Sample.disk "bad.json" JsUndefined "invalid_json" eq_refl).
Defined.

Lemma readJson_parses_the_text_read_witness :
  In (CallParseJson "[1]")
     (all_calls (readJson Sample.debug_logger Sample.imports Sample.disk
                          Sample.long_path JsUndefined))
  /\ readFile Sample.imports Sample.disk Sample.long_path = Normal (Fulfilled "[1]")
  /\ (exists pre,
        all_calls (readJson Sample.debug_logger Sample.imports Sample.disk
                            Sample.long_path JsUndefined)
        = pre ++ [CallParseJson "[1]"]
        /\ filter is_parse pre = []
        /\ In (CallReadFile Sample.long_path) pre)
  /\ awaited (readJson Sample.debug_logger Sample.imports Sample.disk
                       Sample.long_path JsUndefined)
     = Normal (Sample.JsonArray [Sample.JsonNumber 1]).
Proof.
  assert (Hin : In (CallParseJson "[1]")
                   (all_calls (readJson Sample.debug_logger Sample.imports
                                        Sample.disk Sample.long_path JsUndefined)))
    by (right; right; left; reflexivity).
  destruct (readJson_parses_the_text_read Sample.debug_logger Sample.imports
              Sample.disk Sample.long_path JsUndefined "[1]" Hin)
    as [_ [Hshape Hout]].
  split; [exact Hin|]. split; [reflexivity|].
  split; [exact Hshape | exact Hout].
Defined.

Lemma readJson_non_blocking_defers_parse_witness :
  JsBoolean false <> JsBoolean true
  /\ filter is_parse
       (calls (readJson Sample.debug_logger Sample.imports Sample.disk
                        "config.json" (JsBoolean false))) = []
  /\ filter is_parse
       (all_calls (readJson Sample.debug_logger Sample.imports Sample.disk
                            "config.json" (JsBoolean false)))
     = [CallParseJson "{}"].
Proof.
  assert (Hs : JsBoolean false <> JsBoolean true) by discriminate.
  split; [exact Hs|].
  split; [|reflexivity].
  exact (proj1 (readJson_non_blocking_defers_parse Sample.debug_logger
                  Sample.imports Sample.disk "config.json" (JsBoolean false)) Hs).
Defined.

Lemma readJson_reads_once_witness :
  completion (log_call Sample.debug_logger "missing.json"
                       (default_param (JsBoolean true) (JsBoolean false)))
  = Normal tt
  /\ List.length
       (filter is_read
          (all_calls (readJson Sample.debug_logger Sample.imports Sample.disk
                               "missing.json" (JsBoolean true)))) = 1%nat.
Proof.
  destruct (readJson_reads_once Sample.debug_logger Sample.imports Sample.disk
              "missing.json" (JsBoolean true)) as [_ [_ [Hread _]]].
  split; [reflexivity|]. apply Hread. reflexivity.
Defined.


